(** * Contacts API (main.py): handlers, routing table and token lookup

    A shallow embedding of [main.py].  Handlers are functions in a small
    state-and-exception monad over the database session; the two FastAPI
    objects of the module ([app] and [router]) are route tables; the
    signed-token and password-hash libraries are an interface
    ([Primitives]) the handlers are written against.

    The module is read as its statements are written: line 16, which
    imports [get_current_user] from the module itself, is taken to have
    supplied the function that line 88 defines. *)

From Stdlib Require Import ZArith List String Ascii Bool Lia.
From Stdlib Require Import DecimalString DecimalZ.
Import ListNotations.
Open Scope string_scope.
Open Scope Z_scope.

(** ** Data model *)

Module Model.

(** [models.User], imported by main.py; the handlers read [id], [username]
    and [password] (the stored hash) and build [User(username=, password=)]. *)
Module User.
Record t := mk {
  id : Z;
  username : string;
  password : string
}.
End User.

(** A point in time, in microseconds (the resolution of Python's
    [datetime]). *)
Definition datetime := Z.

(** A calendar date, as a day number. *)
Definition date := Z.

(** Modelled from the spec: the rows of the contacts table of models.py,
    which is not among the sources ("Contact: id, first_name, last_name,
    email, birthday, owning user_id"); the birthday is a calendar date. *)
Module Contact.
Record t := mk {
  id : Z;
  first_name : string;
  last_name : string;
  email : string;
  birthday : date;
  user_id : Z
}.
End Contact.

(** The database behind a [Session]: the two tables in row order, and the
    sequence that numbers new users. *)
Record Db := mkDb {
  users : list User.t;
  contacts : list Contact.t;
  user_seq : Z
}.

(** [HTTPException(status_code, detail, headers)]. *)
Record HTTPException := mkExc {
  status_code : Z;
  detail : string;
  headers : list (string * string)
}.

(** An exception that is not an [HTTPException].  Nothing in main.py
    catches one: it leaves the handler and the server answers 500. *)
Inductive Exception := ArgumentError.

(** How a call ends: it returns, it raises an [HTTPException], or it throws
    another exception. *)
Inductive result (A : Type) : Type :=
| Ok (a : A)
| Raise (e : HTTPException)
| Throw (e : Exception).
Arguments Ok {A} a.
Arguments Raise {A} e.
Arguments Throw {A} e.

End Model.
Import Model.

(** ** Handlers run in a state-and-exception monad over the session *)

Module Handler.

Definition M (A : Type) : Type := Db -> result A * Db.

Definition ret {A} (a : A) : M A := fun db => (Ok a, db).

Definition raise {A} (e : HTTPException) : M A := fun db => (Raise e, db).

Definition throw {A} (e : Exception) : M A := fun db => (Throw e, db).

Definition bind {A B} (m : M A) (k : A -> M B) : M B :=
  fun db =>
    match m db with
    | (Ok a, db') => k a db'
    | (Raise e, db') => (Raise e, db')
    | (Throw e, db') => (Throw e, db')
    end.

Definition query {A} (q : Db -> A) : M A := fun db => (Ok (q db), db).

Definition modify (f : Db -> Db) : M unit := fun db => (Ok tt, f db).

End Handler.
Import Handler.

Declare Scope handler_scope.
Delimit Scope handler_scope with handler.
Notation "x <- m ;; k" := (bind m (fun x => k))
  (at level 61, m at next level, right associativity) : handler_scope.
Notation "m ;;; k" := (bind m (fun _ => k))
  (at level 61, right associativity) : handler_scope.
Open Scope handler_scope.

(** ** Persistence layer *)

Module crud.

(** [query.filter(pred).first()]: the first row that satisfies [pred]. *)
Definition first {A} (pred : A -> bool) (rows : list A) : option A :=
  find pred rows.

(** Modelled from the spec: crud.get_contact, whose file (crud.py) is not
    among the sources; the handlers "read ... by id". *)
Definition get_contact (contact_id : Z) : M (option Contact.t) :=
  query (fun db => first (fun c => Contact.id c =? contact_id) (contacts db)).

(** Modelled from the spec: crud.delete_contact (crud.py is not among the
    sources): "deletes by id; 404 if missing; ownership not checked".  The
    row is deleted by its primary key and handed back; [None] when there is
    no such row. *)
Definition delete_contact (contact_id : Z) : M (option Contact.t) :=
  found <- query (fun db => first (fun c => Contact.id c =? contact_id) (contacts db)) ;;
  match found with
  | None => ret None
  | Some c =>
      modify (fun db =>
        mkDb (users db)
             (filter (fun c' => negb (Contact.id c' =? contact_id)) (contacts db))
             (user_seq db)) ;;;
      ret (Some c)
  end.

End crud.

(** ** Token and password primitives (auth.py, passlib) *)

(** A bearer token: the claims it carries and the signature over them. *)
Record Token := mkToken {
  sub : string;
  exp : datetime;
  signature : string
}.

(** The libraries behind [auth] and [pwd_context].  [jwt_sign sub exp] is
    the signature the server's secret key gives the claims; [pwd_hash salt
    password] is bcrypt with the salt it draws; [refresh_lifetime] is the
    lifetime of a refresh token, which the spec leaves external. *)
Class Primitives := {
  jwt_sign : string -> datetime -> string;
  pwd_hash : string -> string -> string;
  pwd_verify : string -> string -> bool;
  refresh_lifetime : Z
}.

Definition timedelta_days (n : Z) : Z := n * 86400000000.
Definition timedelta_minutes (n : Z) : Z := n * 60000000.

(** Python's [str] on an int: its decimal numeral. *)
Definition str (n : Z) : string := NilEmpty.string_of_int (Z.to_int n).

Module auth.
Section WithPrimitives.
Context {P : Primitives}.

(** Modelled from the spec: auth.create_access_token (auth.py is not among
    the sources): a signed, expiring token carrying the subject claim. *)
Definition create_access_token (data_sub : string) (expires_delta : Z)
    (now : datetime) : Token :=
  let expire := now + expires_delta in
  mkToken data_sub expire (jwt_sign data_sub expire).

(** Modelled from the spec: auth.create_refresh_token (auth.py is not among
    the sources); its lifetime is external. *)
Definition create_refresh_token (data_sub : string) (now : datetime) : Token :=
  create_access_token data_sub refresh_lifetime now.

Definition signature_ok (t : Token) : bool :=
  String.eqb (signature t) (jwt_sign (sub t) (exp t)).

(** A token is expired once the clock has passed its [exp] claim. *)
Definition expired (now : datetime) (t : Token) : bool := exp t <? now.

(** Modelled from the spec: auth.verify_token (auth.py is not among the
    sources): "decode and verify signature and expiry; on any failure,
    signal an authentication error; on success, return the embedded subject
    identifier". *)
Definition verify_token (now : datetime) (token : Token)
    (credentials_exception : HTTPException) : M string :=
  if signature_ok token && negb (expired now token)
  then ret (sub token)
  else raise credentials_exception.

End WithPrimitives.
End auth.

(** ** The query builder *)

Module orm.

(** Modelled from the spec: the two classes called [Contact], of models.py
    and of schemas.py, neither among the sources.  The spec sets the
    persistence layer, which "maps entities (User, Contact) to relational
    storage", beside the "data-transfer schemas", which "validate and shape
    request/response payloads": the first is a mapped class, the second is
    not, and the query builder knows mapped classes only. *)
Inductive entity := models_Contact | schemas_Contact.

Definition mapped (e : entity) : bool :=
  match e with
  | models_Contact => true
  | schemas_Contact => false
  end.

Inductive column := first_name | last_name | email | birthday.

(** The criteria main.py writes: [column.ilike(pattern)] and
    [column.between(lo, hi)], the bounds being datetimes. *)
Inductive criterion :=
| ilike (c : column) (pattern : string)
| between (c : column) (lo hi : datetime).

(** A query: what it selects from, and the criteria [filter] has added. *)
Record Query := mkQuery {
  from : entity;
  criteria : list criterion
}.

(** What the database makes of a criterion on a row: its [ILIKE], and its
    comparison of a date with datetimes. *)
Class Backend := {
  holds : criterion -> Contact.t -> bool
}.

(** [db.query(entity)]: a query on a mapped class; any other argument is
    refused on the spot with [ArgumentError]. *)
Definition query (e : entity) : M Query :=
  if mapped e then ret (mkQuery e []) else throw ArgumentError.

(** [query.filter(criterion)]. *)
Definition filter (q : Query) (c : criterion) : Query :=
  mkQuery (from q) (criteria q ++ [c]).

(** [query.all()]: the rows that meet every criterion, in table order. *)
Definition all {B : Backend} (q : Query) : M (list Contact.t) :=
  Handler.query (fun db =>
    List.filter (fun row => forallb (fun c => holds c row) (criteria q))
                (contacts db)).

End orm.

(** ** The handlers of main.py *)

Module main.
Section WithPrimitives.
Context {P : Primitives} {B : orm.Backend}.

Definition HTTP_201_CREATED : Z := 201.
Definition HTTP_401_UNAUTHORIZED : Z := 401.

(** [read_contact], lines 34-39. *)
Definition read_contact (contact_id : Z) (current_user : User.t)
    : M Contact.t :=
  db_contact <- crud.get_contact contact_id ;;
  match db_contact with
  | None => raise (mkExc 404 "Contact not found" [])
  | Some c =>
      if negb (Contact.user_id c =? User.id current_user)
      then raise (mkExc 404 "Contact not found" [])
      else ret c
  end.

(** [delete_contact], lines 47-52: the signature declares the session only. *)
Definition delete_contact (contact_id : Z) : M Contact.t :=
  db_contact <- crud.delete_contact contact_id ;;
  match db_contact with
  | None => raise (mkExc 404 "Contact not found" [])
  | Some c => ret c
  end.

(** [get_current_user], lines 88-98.  The value [verify_token] returns is
    compared with the [username] column. *)
Definition get_current_user (now : datetime) (token : Token) : M User.t :=
  let credentials_exception :=
    mkExc HTTP_401_UNAUTHORIZED "Could not validate credentials"
          [("WWW-Authenticate", "Bearer")] in
  user_id <- auth.verify_token now token credentials_exception ;;
  user <- query (fun db =>
            crud.first (fun u => String.eqb (User.username u) user_id)
                       (users db)) ;;
  match user with
  | None => raise credentials_exception
  | Some u => ret u
  end.

Definition get_password_hash (salt password : string) : string :=
  pwd_hash salt password.

Definition verify_password (plain_password hashed_password : string) : bool :=
  pwd_verify plain_password hashed_password.

(** [register_user], lines 106-116; [salt] is what the hash draws.  The new
    row takes its id from the users sequence on commit. *)
Definition register_user (salt : string) (username password : string)
    : M string :=
  existing_user <- query (fun db =>
      crud.first (fun u => String.eqb (User.username u) username) (users db)) ;;
  match existing_user with
  | Some _ => raise (mkExc 409 "User already exists" [])
  | None =>
      let hashed_password := get_password_hash salt password in
      modify (fun db =>
        let new_user := User.mk (user_seq db) username hashed_password in
        mkDb (users db ++ [new_user]) (contacts db) (user_seq db + 1)) ;;;
      ret "User registered successfully"
  end.

(** [OAuth2PasswordRequestForm]: the two fields the handler reads. *)
Record LoginForm := mkForm {
  form_username : string;
  form_password : string
}.

Record LoginResponse := mkLogin {
  access_token : Token;
  refresh_token : Token;
  token_type : string
}.

(** [login_user], lines 118-131. *)
Definition login_user (now : datetime) (form_data : LoginForm)
    : M LoginResponse :=
  user <- query (fun db =>
      crud.first (fun u => String.eqb (User.username u) (form_username form_data))
                 (users db)) ;;
  match user with
  | None => raise (mkExc HTTP_401_UNAUTHORIZED "Invalid credentials" [])
  | Some u =>
      if negb (verify_password (form_password form_data) (User.password u))
      then raise (mkExc HTTP_401_UNAUTHORIZED "Invalid credentials" [])
      else
        let access := auth.create_access_token (str (User.id u))
                        (timedelta_minutes 30) now in
        let refresh := auth.create_refresh_token (str (User.id u)) now in
        ret (mkLogin access refresh "bearer")
  end.

(** [refresh_access_token], lines 133-144. *)
Definition refresh_access_token (now : datetime) (refresh : Token)
    : M (Token * string) :=
  let credentials_exception :=
    mkExc HTTP_401_UNAUTHORIZED "Could not validate refresh token"
          [("WWW-Authenticate", "Bearer")] in
  user_id <- auth.verify_token now refresh credentials_exception ;;
  let new_access_token :=
    auth.create_access_token user_id (timedelta_minutes 30) now in
  ret (new_access_token, "bearer").

(** Truth value of an [Optional[str]] in [if name:]: neither [None] nor the
    empty string. *)
Definition truthy (s : option string) : bool :=
  match s with
  | None => false
  | Some v => negb (String.eqb v "")
  end.

(** The f-string ["%{name}%"]. *)
Definition fstring_percent (name : option string) : string :=
  match name with
  | None => "%None%"
  | Some v => "%" ++ v ++ "%"
  end.

(** The name [Contact] in main.py: line 6 imports it from schemas, and the
    routes use it as their [response_model]; [models.Contact] is named
    nowhere in the file. *)
Definition Contact : orm.entity := orm.schemas_Contact.

(** [search_contacts], lines 54-72. *)
Definition search_contacts (name surname email : option string)
    : M (list Model.Contact.t) :=
  query0 <- orm.query Contact ;;
  let query1 :=
    if truthy name
    then orm.filter query0 (orm.ilike orm.first_name (fstring_percent name))
    else query0 in
  let query2 :=
    if truthy surname
    then orm.filter query1 (orm.ilike orm.last_name (fstring_percent surname))
    else query1 in
  let query3 :=
    if truthy email
    then orm.filter query2 (orm.ilike orm.email (fstring_percent email))
    else query2 in
  results <- orm.all query3 ;;
  match results with
  | [] => raise (mkExc 404 "Contacts not found" [])
  | _ :: _ => ret results
  end.

(** [get_upcoming_birthdays], lines 74-86; [today] is what
    [datetime.today()] reads off the clock, a date and a time of day. *)
Definition get_upcoming_birthdays (today : datetime)
    : M (list Model.Contact.t) :=
  let upcoming := today + timedelta_days 7 in
  query0 <- orm.query Contact ;;
  contacts <- orm.all
                (orm.filter query0 (orm.between orm.birthday today upcoming)) ;;
  match contacts with
  | [] => raise (mkExc 404 "No upcoming birthdays found" [])
  | _ :: _ => ret contacts
  end.

End WithPrimitives.
End main.

(** ** Routing: the route tables the decorators build, and dispatch *)

Module routing.

Inductive http_method := GET | HEAD | POST | PUT | PATCH | DELETE | OPTIONS.

Definition method_eqb (a b : http_method) : bool :=
  match a, b with
  | GET, GET | HEAD, HEAD | POST, POST | PUT, PUT
  | PATCH, PATCH | DELETE, DELETE | OPTIONS, OPTIONS => true
  | _, _ => false
  end.

(** The functions a route can point at: the four pages [FastAPI()] installs
    by itself, and the ten handlers main.py defines. *)
Inductive endpoint :=
| openapi | swagger_ui_html | swagger_ui_redirect | redoc_html
| read_root | create_contact | read_contact | update_contact
| delete_contact | search_contacts | get_upcoming_birthdays
| register_user | login_user | refresh_access_token.

Definition endpoint_eqb (a b : endpoint) : bool :=
  match a, b with
  | openapi, openapi | swagger_ui_html, swagger_ui_html
  | swagger_ui_redirect, swagger_ui_redirect | redoc_html, redoc_html
  | read_root, read_root | create_contact, create_contact
  | read_contact, read_contact | update_contact, update_contact
  | delete_contact, delete_contact | search_contacts, search_contacts
  | get_upcoming_birthdays, get_upcoming_birthdays
  | register_user, register_user | login_user, login_user
  | refresh_access_token, refresh_access_token => true
  | _, _ => false
  end.

(** A route: path template, methods, the status code of a successful
    response, and the function it calls. *)
Record Route := mkRoute {
  path : string;
  methods : list http_method;
  success_status : Z;
  endpoint_of : endpoint
}.

(** What [FastAPI()] holds before any decorator runs. *)
Definition default_routes : list Route :=
  [ mkRoute "/openapi.json" [GET; HEAD] 200 openapi;
    mkRoute "/docs" [GET; HEAD] 200 swagger_ui_html;
    mkRoute "/docs/oauth2-redirect" [GET; HEAD] 200 swagger_ui_redirect;
    mkRoute "/redoc" [GET; HEAD] 200 redoc_html ].

(** The statements of a module that touch a route table: a decorator on
    [app], a decorator on [router] (each with its [status_code], 200 when
    the decorator gives none), and [app.include_router(router)]. *)
Inductive registration :=
| on_app (m : http_method) (p : string) (status : Z) (e : endpoint)
| on_router (m : http_method) (p : string) (status : Z) (e : endpoint)
| include_router.

(** main.py, top to bottom: the decorators of lines 26-133.  [update_contact]
    (line 41) carries no decorator, and no line calls
    [app.include_router]. *)
Definition main_py : list registration :=
  [ on_app GET "/" 200 read_root;
    on_app POST "/contacts/" 201 create_contact;
    on_app GET "/contacts/{contact_id}" 200 read_contact;
    on_app DELETE "/contacts/{contact_id}" 200 delete_contact;
    on_app GET "/contacts/search" 200 search_contacts;
    on_app GET "/contacts/upcoming-birthdays" 200 get_upcoming_birthdays;
    on_router POST "/register" main.HTTP_201_CREATED register_user;
    on_router POST "/login" 200 login_user;
    on_router POST "/refresh" 200 refresh_access_token ].

(** The two objects of line 21 and line 24. *)
Record Objects := mkObjects {
  app_routes : list Route;
  router_routes : list Route
}.

Definition exec (o : Objects) (s : registration) : Objects :=
  match s with
  | on_app m p status e =>
      mkObjects (app_routes o ++ [mkRoute p [m] status e]) (router_routes o)
  | on_router m p status e =>
      mkObjects (app_routes o) (router_routes o ++ [mkRoute p [m] status e])
  | include_router =>
      mkObjects (app_routes o ++ router_routes o) (router_routes o)
  end.

Definition load (module : list registration) : Objects :=
  fold_left exec module (mkObjects default_routes []).

(** The application that serves requests, and the router beside it. *)
Definition app : list Route := app_routes (load main_py).
Definition router : list Route := router_routes (load main_py).

Definition route_to (e : endpoint) (routes : list Route) : option Route :=
  find (fun r => endpoint_eqb (endpoint_of r) e) routes.

(** The status line of a response: the route's own code when the function
    returns, the exception's when it raises, 500 when it throws. *)
Definition http_status {A} (r : Route) (res : result A) : Z :=
  match res with
  | Ok _ => success_status r
  | Raise e => status_code e
  | Throw _ => 500
  end.

(** *** Path templates *)

Inductive piece :=
| Lit (s : string)
| Param (name : string).

Definition lit_piece (acc : string) : list piece :=
  match acc with
  | EmptyString => []
  | _ => [Lit acc]
  end.

(** A template is cut at its [{name}] parameters. *)
Fixpoint compile_aux (in_param : bool) (acc : string) (s : string)
    : list piece :=
  match s with
  | EmptyString => if in_param then [Lit ("{" ++ acc)] else lit_piece acc
  | String c s' =>
      if in_param then
        if Ascii.eqb c "}" then Param acc :: compile_aux false "" s'
        else compile_aux true (acc ++ String c "") s'
      else
        if Ascii.eqb c "{" then lit_piece acc ++ compile_aux true "" s'
        else compile_aux false (acc ++ String c "") s'
  end.

Definition compile_path (template : string) : list piece :=
  compile_aux false "" template.

Fixpoint strip_prefix (pre s : string) : option string :=
  match pre with
  | EmptyString => Some s
  | String a pre' =>
      match s with
      | EmptyString => None
      | String b s' => if Ascii.eqb a b then strip_prefix pre' s' else None
      end
  end.

(** The longest run of characters other than [/] at the head of [s], and
    what follows it. *)
Fixpoint span_segment (s : string) : string * string :=
  match s with
  | EmptyString => (EmptyString, EmptyString)
  | String c s' =>
      if Ascii.eqb c "/" then (EmptyString, s)
      else let (seg, rest) := span_segment s' in (String c seg, rest)
  end.

Definition newline : ascii := "010"%char.

(** A literal matches itself; a parameter matches one non-empty run without
    [/] (the default path convertor) and binds it to its name.  The end of
    the template is the [$] of a regular expression: it meets the end of
    the path, or one newline that ends the path. *)
Fixpoint match_path (pieces : list piece) (p : string)
    : option (list (string * string)) :=
  match pieces with
  | [] =>
      match p with
      | EmptyString => Some []
      | String c EmptyString => if Ascii.eqb c newline then Some [] else None
      | String _ (String _ _) => None
      end
  | Lit l :: pieces' =>
      match strip_prefix l p with
      | None => None
      | Some rest => match_path pieces' rest
      end
  | Param name :: pieces' =>
      match span_segment p with
      | (EmptyString, _) => None
      | (seg, rest) =>
          match match_path pieces' rest with
          | None => None
          | Some params => Some ((name, seg) :: params)
          end
      end
  end.

Record Request := mkRequest {
  req_method : http_method;
  req_path : string
}.

Inductive Match :=
| NONE
| PARTIAL
| FULL (path_params : list (string * string)).

(** A route matches fully when path and method fit, partially when only the
    path does. *)
Definition matches (r : Route) (req : Request) : Match :=
  match match_path (compile_path (path r)) (req_path req) with
  | None => NONE
  | Some params =>
      if existsb (method_eqb (req_method req)) (methods r)
      then FULL params else PARTIAL
  end.

Inductive outcome :=
| Dispatch (e : endpoint) (path_params : list (string * string))
| MethodNotAllowed
| RedirectSlash (location : string)
| NotFound.

(** The first route, in table order, that matches fully. *)
Fixpoint first_full (routes : list Route) (req : Request)
    : option (endpoint * list (string * string)) :=
  match routes with
  | [] => None
  | r :: routes' =>
      match matches r req with
      | FULL params => Some (endpoint_of r, params)
      | _ => first_full routes' req
      end
  end.

Definition is_none (m : Match) : bool :=
  match m with NONE => true | _ => false end.

Definition is_partial (m : Match) : bool :=
  match m with PARTIAL => true | _ => false end.

Fixpoint rstrip_slash_rev (r : list ascii) : list ascii :=
  match r with
  | c :: r' => if Ascii.eqb c "/" then rstrip_slash_rev r' else r
  | [] => []
  end.

(** [path.rstrip("/")]. *)
Definition rstrip_slash (s : string) : string :=
  string_of_list_ascii (rev (rstrip_slash_rev (rev (list_ascii_of_string s)))).

Definition ends_with_slash (s : string) : bool :=
  match rev (list_ascii_of_string s) with
  | c :: _ => Ascii.eqb c "/"
  | [] => false
  end.

Definition toggle_slash (p : string) : string :=
  if ends_with_slash p then rstrip_slash p else p ++ "/".

(** The router's loop: a full match is served; failing that a partial match
    answers 405; failing that the path is retried with its trailing slash
    toggled, for a redirect; failing that, 404. *)
Definition dispatch (routes : list Route) (req : Request) : outcome :=
  match first_full routes req with
  | Some (e, params) => Dispatch e params
  | None =>
      if existsb (fun r => is_partial (matches r req)) routes
      then MethodNotAllowed
      else
        let redirect := mkRequest (req_method req) (toggle_slash (req_path req)) in
        if negb (String.eqb (req_path req) "/")
           && existsb (fun r => negb (is_none (matches r redirect))) routes
        then RedirectSlash (req_path redirect)
        else NotFound
  end.

(** *** What the signatures declare *)

(** Whether the function's signature has
    [current_user: User = Depends(get_current_user)]. *)
Definition depends_on_current_user (e : endpoint) : bool :=
  match e with
  | create_contact | read_contact | update_contact => true
  | _ => false
  end.

Definition is_digit (c : ascii) : bool :=
  let n := N_of_ascii c in ((48 <=? n) && (n <=? 57))%N.

Fixpoint digits_value (acc : Z) (s : string) : option Z :=
  match s with
  | EmptyString => Some acc
  | String c s' =>
      if is_digit c
      then digits_value (10 * acc + Z.of_N (N_of_ascii c) - 48) s'
      else None
  end.

(** Validation of a path parameter annotated [int], on plain numerals: an
    optional sign and decimal digits.  Other spellings the framework may
    take (surrounding blanks, digit separators) and its limit on the number
    of digits are not modelled. *)
Definition validate_int (s : string) : option Z :=
  match s with
  | EmptyString => None
  | String c s' =>
      if Ascii.eqb c "-" then
        match s' with
        | EmptyString => None
        | _ => option_map Z.opp (digits_value 0 s')
        end
      else if Ascii.eqb c "+" then
        match s' with
        | EmptyString => None
        | _ => digits_value 0 s'
        end
      else digits_value 0 s
  end.

(** The [contact_id: int] parameter of a dispatched request. *)
Definition contact_id_param (params : list (string * string)) : option Z :=
  match find (fun kv => String.eqb (fst kv) "contact_id") params with
  | None => None
  | Some kv => validate_int (snd kv)
  end.

End routing.

(** ** Vocabulary of the statements *)

(** The primary key of the contacts table. *)
Definition contacts_keyed (db : Db) : Prop :=
  NoDup (map Contact.id (contacts db)).

Definition not_found : HTTPException := mkExc 404 "Contact not found" [].

Definition credentials_exception : HTTPException :=
  mkExc 401 "Could not validate credentials" [("WWW-Authenticate", "Bearer")].

Definition user_exists : HTTPException := mkExc 409 "User already exists" [].

(** Some stored user goes by this name. *)
Definition username_taken (db : Db) (name : string) : Prop :=
  exists u, In u (users db) /\ User.username u = name.

(** *** The search and birthday handlers *)

(** What the query builder throws at an argument that is not a mapped
    class. *)
Definition not_mapped : Exception := ArgumentError.

(** The 404 of [search_contacts] and of [get_upcoming_birthdays]. *)
Definition contacts_not_found : HTTPException :=
  mkExc 404 "Contacts not found" [].

Definition no_birthdays : HTTPException :=
  mkExc 404 "No upcoming birthdays found" [].

(** One stored contact. *)
Definition bob : Contact.t :=
  Contact.mk 1 "Bob" "Stone" "bob@example.com" 0 1.

Definition db_bob : Db := mkDb [] [bob] 1.

(** Two contacts of two owners, and the first owner. *)
Definition carol : Contact.t :=
  Contact.mk 2 "Carol" "Reed" "carol@example.com" 0 2.

Definition db_two : Db := mkDb [] [bob; carol] 1.

Definition owner_one : User.t := User.mk 1 "ann" "hash".

(** *** Paths *)

(** A text without [/]. *)
Fixpoint no_slash (s : string) : bool :=
  match s with
  | EmptyString => true
  | String c s' => negb (Ascii.eqb c "/") && no_slash s'
  end.

(** One path segment: non-empty, without [/]. *)
Definition is_segment (s : string) : bool :=
  negb (String.eqb s "") && no_slash s.

(** ** Stand-in primitives, to run scenarios *)

Module demo.

Definition ends_with (suffix s : string) : bool :=
  String.eqb (substring (String.length s - String.length suffix)
                        (String.length suffix) s) suffix.

(** Not cryptography: a signature that spells out the claims, and a hash
    that keeps the password after the salt. *)
#[export] Instance primitives : Primitives := {|
  jwt_sign := fun sub exp => "sig:" ++ sub ++ ":" ++ str exp;
  pwd_hash := fun salt password => salt ++ "$" ++ password;
  pwd_verify := fun plain hashed => ends_with ("$" ++ plain) hashed;
  refresh_lifetime := timedelta_days 7
|}.

(** One registered user, alice, whom the sequence numbered 1. *)
Definition alice : User.t := User.mk 1 "alice" (pwd_hash "salt" "wonderland").

Definition db_alice : Db := mkDb [alice] [] 2.

(** What alice's login at time 0 returns. *)
Definition alice_login : main.LoginResponse :=
  main.mkLogin (auth.create_access_token "1" (timedelta_minutes 30) 0)
               (auth.create_refresh_token "1" 0) "bearer".

(** Two users, each named by the other's id. *)
Definition user_two : User.t := User.mk 1 "2" (pwd_hash "salt" "first").
Definition user_one : User.t := User.mk 2 "1" (pwd_hash "salt" "second").

Definition db_crossed : Db := mkDb [user_two; user_one] [] 3.

End demo.

(** ** Vocabulary of the further statements *)

Definition invalid_credentials : HTTPException :=
  mkExc 401 "Invalid credentials" [].

Definition refresh_exception : HTTPException :=
  mkExc 401 "Could not validate refresh token" [("WWW-Authenticate", "Bearer")].

(** No two rows of the users table share a username; no two share an id. *)
Definition usernames_unique (db : Db) : Prop :=
  NoDup (map User.username (users db)).

Definition user_ids_unique (db : Db) : Prop :=
  NoDup (map User.id (users db)).

(** The row of the users table that a username selects. *)
Definition user_named (db : Db) (name : string) : option User.t :=
  crud.first (fun u => String.eqb (User.username u) name) (users db).

(** The row of the contacts table that an id selects. *)
Definition contact_with (db : Db) (contact_id : Z) : option Contact.t :=
  crud.first (fun c => Contact.id c =? contact_id) (contacts db).

Module scenario.

(** A user whose username is the decimal text of her id. *)
Definition seven : User.t :=
  User.mk 7 "7" (pwd_hash (Primitives := demo.primitives) "salt" "pw").

Definition db_seven : Db := mkDb [seven] [] 8.

Definition seven_login : main.LoginResponse :=
  main.mkLogin
    (auth.create_access_token (P := demo.primitives) "7" (timedelta_minutes 30) 0)
    (auth.create_refresh_token (P := demo.primitives) "7" 0) "bearer".

(** An empty database whose sequence stands at 1. *)
Definition db_empty : Db := mkDb [] [] 1.

End scenario.

(** * Properties *)

(** ** Rows and queries *)

Section Queries.
Context {A : Type}.

Lemma first_Some (pred : A -> bool) (rows : list A) (a : A) :
  crud.first pred rows = Some a -> In a rows /\ pred a = true.
Proof. unfold crud.first. apply find_some. Qed.

Lemma first_None (pred : A -> bool) (rows : list A) :
  crud.first pred rows = None <-> (forall a, In a rows -> pred a = false).
Proof.
  unfold crud.first. split.
  - intros H a Ha. exact (find_none pred rows H a Ha).
  - induction rows as [|x rows IH]; intros H; simpl; [reflexivity|].
    rewrite (H x (or_introl eq_refl)). apply IH.
    intros a Ha. apply H. now right.
Qed.

(** Under a key without duplicates, the first row with a given key is the
    only one. *)
Lemma first_by_key (key : A -> Z) (rows : list A) (k : Z) (a : A) :
  NoDup (map key rows) -> In a rows -> key a = k ->
  crud.first (fun r => key r =? k) rows = Some a.
Proof.
  unfold crud.first.
  induction rows as [|x rows IH]; intros Hnd Hin Hk; [destruct Hin|].
  simpl in *. inversion Hnd as [|? ? Hx Hnd']; subst.
  destruct Hin as [->|Hin].
  - now rewrite Z.eqb_refl.
  - destruct (Z.eqb_spec (key x) (key a)) as [E|_].
    + exfalso. apply Hx. rewrite E. now apply in_map.
    + now apply IH.
Qed.

End Queries.

(** ** Reading and deleting a contact *)

(** C2.  On a contacts table keyed by id, [read_contact] leaves the database
    as it found it; it returns a contact [c] exactly when [c] is stored under
    the requested id and its [user_id] is the current user's id; and whenever
    it returns no contact it raises 404. *)
Theorem read_contact_owned_or_404 (db : Db) (contact_id : Z) (current_user : User.t) :
  contacts_keyed db ->
  let run := main.read_contact contact_id current_user db in
  snd run = db
  /\ (forall c, fst run = Ok c <->
        In c (contacts db) /\ Contact.id c = contact_id
        /\ Contact.user_id c = User.id current_user)
  /\ ((forall c, fst run <> Ok c) -> fst run = Raise not_found).
Proof.
  intros Hkey run. subst run.
  unfold main.read_contact, crud.get_contact, bind, query, ret, raise.
  destruct (crud.first (fun c => Contact.id c =? contact_id) (contacts db))
    as [c0|] eqn:Hq; cbn [fst snd].
  - destruct (first_Some _ _ _ Hq) as [Hin Hid]. apply Z.eqb_eq in Hid.
    destruct (Z.eqb_spec (Contact.user_id c0) (User.id current_user)) as [Ho|Ho];
      cbn [negb fst snd].
    + split; [reflexivity|]. split.
      * intros c. split.
        -- intros E. inversion E; subst. tauto.
        -- intros (Hc & Hi & _). f_equal.
           pose proof (first_by_key Contact.id _ _ _ Hkey Hc Hi) as Hq'.
           congruence.
      * intros H. exfalso. exact (H c0 eq_refl).
    + split; [reflexivity|]. split.
      * intros c. split; [discriminate|].
        intros (Hc & Hi & Hu).
        pose proof (first_by_key Contact.id _ _ _ Hkey Hc Hi) as Hq'.
        congruence.
      * reflexivity.
  - split; [reflexivity|]. split.
    + intros c. split; [discriminate|].
      intros (Hc & Hi & _).
      pose proof (proj1 (first_None _ _) Hq c Hc) as Hf. cbn in Hf.
      apply Z.eqb_neq in Hf. contradiction.
    + reflexivity.
Qed.

Lemma read_contact_owned_or_404_witness :
  contacts_keyed db_two
  /\ fst (main.read_contact 1 owner_one db_two) = Ok bob.
Proof.
  assert (Hkey : contacts_keyed db_two).
  { unfold contacts_keyed. cbn.
    constructor; [cbn; intros [H|[]]; discriminate H|].
    constructor; [intros []|constructor]. }
  split; [exact Hkey|].
  destruct (read_contact_owned_or_404 db_two 1 owner_one Hkey) as (_ & H & _).
  apply H. cbn. tauto.
Defined.

(** C3.  [delete_contact] declares no current-user dependency.  When a
    contact with the requested id is stored, whoever owns it, the handler
    returns such a contact and the table afterwards is the old one without
    the rows of that id, users untouched.  When none is stored it raises 404
    and the database is unchanged. *)
Theorem delete_contact_by_id_any_owner (db : Db) (contact_id : Z) :
  let run := main.delete_contact contact_id db in
  routing.depends_on_current_user routing.delete_contact = false
  /\ ((exists c, In c (contacts db) /\ Contact.id c = contact_id) ->
        (exists c, fst run = Ok c /\ In c (contacts db)
                   /\ Contact.id c = contact_id)
        /\ contacts (snd run)
           = filter (fun c => negb (Contact.id c =? contact_id)) (contacts db)
        /\ (forall c, In c (contacts (snd run)) <->
              In c (contacts db) /\ Contact.id c <> contact_id)
        /\ users (snd run) = users db)
  /\ ((forall c, In c (contacts db) -> Contact.id c <> contact_id) ->
        fst run = Raise not_found /\ snd run = db).
Proof.
  intros run. subst run. split; [reflexivity|].
  unfold main.delete_contact, crud.delete_contact, bind, query, modify, ret, raise.
  destruct (crud.first (fun c => Contact.id c =? contact_id) (contacts db))
    as [c0|] eqn:Hq; cbn [fst snd contacts users].
  - destruct (first_Some _ _ _ Hq) as [Hin Hid]. apply Z.eqb_eq in Hid.
    split.
    + intros _. split; [now exists c0|]. split; [reflexivity|].
      split; [|reflexivity].
      intros c. rewrite filter_In, negb_true_iff, Z.eqb_neq. tauto.
    + intros H. exfalso. exact (H c0 Hin Hid).
  - split.
    + intros (c & Hc & Hi). exfalso.
      pose proof (proj1 (first_None _ _) Hq c Hc) as Hf. cbn in Hf.
      apply Z.eqb_neq in Hf. contradiction.
    + intros _. now split.
Qed.

(** ** Registration, login and the current user *)

Section Authentication.
Context {P : Primitives}.

Lemma username_taken_first (db : Db) (name : string) :
  username_taken db name <->
  exists u, crud.first (fun u => String.eqb (User.username u) name) (users db)
            = Some u.
Proof.
  split.
  - intros (u & Hin & Hname).
    destruct (crud.first _ (users db)) as [v|] eqn:Hq; [now exists v|].
    pose proof (proj1 (first_None _ _) Hq u Hin) as Hf. cbn in Hf.
    apply String.eqb_neq in Hf. contradiction.
  - intros (u & Hq). apply first_Some in Hq. destruct Hq as [Hin Hname].
    apply String.eqb_eq in Hname. now exists u.
Qed.

Lemma first_app_new (name : string) (rows : list User.t) (u : User.t) :
  User.username u = name ->
  exists v,
    crud.first (fun u => String.eqb (User.username u) name) (rows ++ [u])
    = Some v.
Proof.
  intros Hname. unfold crud.first.
  induction rows as [|x rows IH]; simpl.
  - rewrite Hname, String.eqb_refl. now exists u.
  - destruct (String.eqb (User.username x) name); [now exists x|exact IH].
Qed.

(** C8.  When the username is taken, [register_user] raises 409 and the
    database is unchanged; otherwise it returns its message, on a route whose
    status code is 201, and the users table gains one row with that username
    and the hash of the password.  Either way a further registration of the
    same username, with any password, raises 409 and changes nothing. *)
Theorem register_user_conflict_or_created
    (salt username password : string) (db : Db) :
  let run := main.register_user salt username password db in
  (username_taken db username ->
     fst run = Raise user_exists /\ snd run = db)
  /\ (~ username_taken db username ->
        fst run = Ok "User registered successfully"
        /\ users (snd run)
           = (users db ++ [User.mk (user_seq db) username
                                   (pwd_hash salt password)])%list
        /\ contacts (snd run) = contacts db)
  /\ (exists r, routing.route_to routing.register_user routing.router = Some r
        /\ (username_taken db username ->
              routing.http_status r (fst run) = 409)
        /\ (~ username_taken db username ->
              routing.http_status r (fst run) = 201))
  /\ (forall salt' password',
        let again := main.register_user salt' username password' (snd run) in
        fst again = Raise user_exists /\ snd again = snd run).
Proof.
  intros run.
  assert (Htaken : username_taken db username ->
                   fst run = Raise user_exists /\ snd run = db).
  { intros Ht. apply username_taken_first in Ht. destruct Ht as [u Hq].
    subst run. unfold main.register_user, bind, query, raise.
    now rewrite Hq. }
  assert (Hfresh : ~ username_taken db username ->
            fst run = Ok "User registered successfully"
            /\ users (snd run)
               = (users db ++ [User.mk (user_seq db) username
                                       (pwd_hash salt password)])%list
            /\ contacts (snd run) = contacts db).
  { intros Hn. subst run.
    unfold main.register_user, bind, query, modify, ret, raise.
    destruct (crud.first _ (users db)) as [u|] eqn:Hq.
    - exfalso. apply Hn. apply username_taken_first. now exists u.
    - cbn. now repeat split. }
  assert (Hafter : username_taken (snd run) username).
  { destruct (crud.first (fun u => String.eqb (User.username u) username)
                         (users db)) as [u|] eqn:Hq.
    - assert (Ht : username_taken db username)
        by (apply username_taken_first; now exists u).
      destruct (Htaken Ht) as [_ ->]. exact Ht.
    - assert (Hn : ~ username_taken db username).
      { intros Ht. apply username_taken_first in Ht. destruct Ht as [u Hu].
        congruence. }
      destruct (Hfresh Hn) as (_ & Hu & _).
      apply username_taken_first. rewrite Hu. now apply first_app_new. }
  split; [exact Htaken|]. split; [exact Hfresh|]. split.
  - eexists. split; [reflexivity|]. split.
    + intros Ht. destruct (Htaken Ht) as [-> _]. reflexivity.
    + intros Hn. destruct (Hfresh Hn) as (-> & _). reflexivity.
  - intros salt' password' again. subst again.
    apply username_taken_first in Hafter. destruct Hafter as [u Hq].
    clear Htaken Hfresh. set (db' := snd run) in *. clearbody db'.
    unfold main.register_user, bind, query, raise.
    now rewrite Hq.
Qed.

(** X22.  [get_current_user] as the code has it: it leaves the database
    alone and either returns a stored user or raises the 401 that carries
    [WWW-Authenticate: Bearer]; it raises exactly when the signature is bad,
    the token is expired, or no stored user has the subject as username;
    the user it returns has the subject as username; a token with a bad
    signature or past its expiry never yields a user. *)
Theorem get_current_user_401_iff (now : datetime) (token : Token) (db : Db) :
  let run := main.get_current_user now token db in
  snd run = db
  /\ status_code credentials_exception = 401
  /\ headers credentials_exception = [("WWW-Authenticate", "Bearer")]
  /\ (fst run = Raise credentials_exception <->
        auth.signature_ok token = false
        \/ auth.expired now token = true
        \/ ~ username_taken db (sub token))
  /\ (forall u, fst run = Ok u ->
        In u (users db) /\ User.username u = sub token
        /\ auth.signature_ok token = true /\ auth.expired now token = false)
  /\ ((forall u, fst run <> Ok u) -> fst run = Raise credentials_exception)
  /\ (auth.signature_ok token = false \/ auth.expired now token = true ->
        forall u, fst run <> Ok u).
Proof.
  intros run. subst run.
  unfold main.get_current_user, auth.verify_token, bind, query, ret, raise.
  fold credentials_exception.
  destruct (auth.signature_ok token) eqn:Hsig;
    destruct (auth.expired now token) eqn:Hexp; cbn [andb negb fst snd];
    try (repeat (split; [first [reflexivity | tauto | discriminate]|]);
         intuition discriminate).
  destruct (crud.first (fun u => String.eqb (User.username u) (sub token))
                       (users db)) as [u|] eqn:Hq; cbn [fst snd].
  - assert (Ht : username_taken db (sub token))
      by (apply username_taken_first; now exists u).
    apply first_Some in Hq. destruct Hq as [Hin Hname].
    apply String.eqb_eq in Hname.
    repeat (split; [first [reflexivity | discriminate]|]).
    split; [split; [discriminate|intuition discriminate]|].
    split; [intros v E; inversion E; subst; tauto|].
    split; [intros H; exfalso; exact (H u eq_refl)|].
    intuition discriminate.
  - assert (Hn : ~ username_taken db (sub token)).
    { intros Ht. apply username_taken_first in Ht. destruct Ht as [u Hu].
      congruence. }
    repeat (split; [first [reflexivity | discriminate]|]).
    split; [tauto|].
    split; [discriminate|].
    split; [reflexivity|].
    intuition discriminate.
Qed.

(** A successful login found a user and put [str(user.id)] in the subject of
    the access token. *)
Lemma login_user_subject (now : datetime) (form : main.LoginForm) (db : Db)
    (resp : main.LoginResponse) :
  fst (main.login_user now form db) = Ok resp ->
  exists u,
    crud.first (fun u => String.eqb (User.username u) (main.form_username form))
               (users db) = Some u
    /\ main.verify_password (main.form_password form) (User.password u) = true
    /\ main.access_token resp
       = auth.create_access_token (str (User.id u)) (timedelta_minutes 30) now.
Proof.
  unfold main.login_user, bind, query, ret, raise.
  destruct (crud.first _ (users db)) as [u|]; cbn [fst]; [|discriminate].
  destruct (main.verify_password _ _) eqn:Hv; cbn [negb fst]; [|discriminate].
  intros E. inversion E; subst. now exists u.
Qed.

(** A token the server has just created is looked up, while it lasts, in the
    username column under its subject. *)
Lemma get_current_user_created (subject : string) (delta : Z)
    (now now' : datetime) (db : Db) :
  now' <= now + delta ->
  fst (main.get_current_user now' (auth.create_access_token subject delta now) db)
  = match crud.first (fun u => String.eqb (User.username u) subject) (users db) with
    | Some u => Ok u
    | None => Raise credentials_exception
    end.
Proof.
  intros Hle.
  unfold main.get_current_user, auth.verify_token, auth.create_access_token,
    auth.signature_ok, auth.expired, bind, query, ret, raise.
  cbn [sub exp signature]. rewrite String.eqb_refl.
  assert (E : (now + delta <? now') = false) by (apply Z.ltb_ge; lia).
  rewrite E. cbn [andb negb]. fold credentials_exception.
  now destruct (crud.first _ (users db)).
Qed.

(** C7 (at a failing input).  The users table holds one user, alice, with
    id 1, and the token is one the server signed for the subject ["1"], her
    id, presented before it expires.  Its signature is good, it is not
    expired and its subject is the id of a stored user; [get_current_user]
    raises the 401 all the same, because it looks for the subject in the
    username column.  The claim has a 401 only for a bad signature, an
    expired token or a subject that belongs to no stored user. *)
Theorem stored_user_token_rejected (hashed : string) (delta : Z)
    (now now' : datetime) :
  now' <= now + delta ->
  let db := mkDb [User.mk 1 "alice" hashed] [] 2 in
  let token := auth.create_access_token (str 1) delta now in
  auth.signature_ok token = true
  /\ auth.expired now' token = false
  /\ (exists u, In u (users db) /\ str (User.id u) = sub token)
  /\ main.get_current_user now' token db = (Raise credentials_exception, db).
Proof.
  intros Hnow db token.
  assert (Hsig : auth.signature_ok token = true).
  { unfold auth.signature_ok, token, auth.create_access_token.
    cbn [sub exp signature]. apply String.eqb_refl. }
  assert (Hexp : auth.expired now' token = false).
  { unfold auth.expired, token, auth.create_access_token. cbn [exp].
    apply Z.ltb_ge. lia. }
  split; [exact Hsig|]. split; [exact Hexp|]. split.
  - exists (User.mk 1 "alice" hashed). split; [now left|reflexivity].
  - unfold main.get_current_user, auth.verify_token, bind, query, ret, raise.
    fold credentials_exception. rewrite Hsig, Hexp. reflexivity.
Qed.

(** C1 (at a failing input).  The users table holds one user, alice, with
    id 1.  Whenever her login succeeds, presenting the access token it
    returned, at any time, makes [get_current_user] raise 401: the subject
    is ["1"], and no username is ["1"].  The claim has the lookup return
    alice. *)
Theorem login_alice_token_rejected (hashed : string) (now now' : datetime)
    (form : main.LoginForm) (resp : main.LoginResponse) :
  let db := mkDb [User.mk 1 "alice" hashed] [] 2 in
  fst (main.login_user now form db) = Ok resp ->
  fst (main.get_current_user now' (main.access_token resp) db)
  = Raise credentials_exception.
Proof.
  intros db Hlogin.
  destruct (login_user_subject _ _ _ _ Hlogin) as (u & Hq & _ & Htok).
  apply first_Some in Hq. destruct Hq as [[<-|[]] _].
  rewrite Htok. cbn [User.id].
  unfold main.get_current_user, auth.verify_token, bind, query, ret, raise.
  fold credentials_exception.
  now destruct (auth.signature_ok _ && negb (auth.expired now' _)).
Qed.

End Authentication.

Lemma login_alice_token_rejected_witness :
  fst (main.login_user (P := demo.primitives) 0
         (main.mkForm "alice" "wonderland") demo.db_alice)
  = Ok demo.alice_login
  /\ fst (main.get_current_user (P := demo.primitives) 0
            (main.access_token demo.alice_login) demo.db_alice)
     = Raise credentials_exception.
Proof.
  split; [reflexivity|].
  apply (login_alice_token_rejected (P := demo.primitives)
           (pwd_hash (Primitives := demo.primitives) "salt" "wonderland")
           0 0 (main.mkForm "alice" "wonderland") demo.alice_login).
  reflexivity.
Defined.

Lemma stored_user_token_rejected_witness :
  10 <= 0 + timedelta_minutes 30
  /\ main.get_current_user (P := demo.primitives) 10
       (main.access_token demo.alice_login) demo.db_alice
     = (Raise credentials_exception, demo.db_alice).
Proof.
  assert (Hnow : 10 <= 0 + timedelta_minutes 30) by (vm_compute; discriminate).
  split; [exact Hnow|].
  exact (proj2 (proj2 (proj2
           (stored_user_token_rejected (P := demo.primitives)
              (pwd_hash (Primitives := demo.primitives) "salt" "wonderland")
              (timedelta_minutes 30) 0 10 Hnow)))).
Defined.

(** With two users each named by the other's id, the token of the one who
    logs in is resolved to the other. *)
Example login_crossed_resolves_to_other :
  exists resp,
    fst (main.login_user (P := demo.primitives) 0
           (main.mkForm "2" "first") demo.db_crossed) = Ok resp
    /\ fst (main.get_current_user (P := demo.primitives) 0
              (main.access_token resp) demo.db_crossed) = Ok demo.user_one.
Proof. eexists. split; reflexivity. Qed.

(** ** Search and upcoming birthdays *)

Section SchemaQueries.
Context {B : orm.Backend}.

(** The query builder refuses the name [Contact] of main.py. *)
Lemma query_Contact_throws (db : Db) :
  orm.query main.Contact db = (Throw not_mapped, db).
Proof. reflexivity. Qed.

(** C5 (at every input, the failing one among them).  [search_contacts]
    builds its query on [Contact], which in main.py names the response
    schema and not the mapped class; the query builder refuses it at line
    61, before any filter is added.  So whatever the filters, the stored
    contacts and the backend, the handler throws [ArgumentError]: it returns
    no contact, raises no 404, leaves the database as it was, and the
    response is a 500.  The claim has it return the matching contacts. *)
Theorem search_contacts_throws (name surname email : option string) (db : Db) :
  let run := main.search_contacts name surname email db in
  run = (Throw not_mapped, db)
  /\ (forall rows, fst run <> Ok rows)
  /\ fst run <> Raise contacts_not_found
  /\ (exists r,
        routing.route_to routing.search_contacts routing.app = Some r
        /\ routing.http_status r (fst run) = 500).
Proof.
  intros run.
  assert (E : run = (Throw not_mapped, db)).
  { subst run. unfold main.search_contacts, bind.
    now rewrite query_Contact_throws. }
  rewrite E. cbn [fst]. split; [reflexivity|].
  split; [discriminate|]. split; [discriminate|].
  eexists. split; reflexivity.
Qed.

(** C6 (at every input, the failing one among them).
    [get_upcoming_birthdays] builds its query on the same [Contact], and
    the query builder refuses it at line 79, before the birthday is compared
    with anything.  So whatever the clock, the stored contacts and the
    backend, the handler throws [ArgumentError]: it returns no contact, a
    birthday seven days out included, raises no 404, and the response is a
    500.  The claim has it return the contacts of the next seven days. *)
Theorem upcoming_birthdays_throws (today : datetime) (db : Db) :
  let run := main.get_upcoming_birthdays today db in
  run = (Throw not_mapped, db)
  /\ (forall rows, fst run <> Ok rows)
  /\ fst run <> Raise no_birthdays
  /\ (exists r,
        routing.route_to routing.get_upcoming_birthdays routing.app = Some r
        /\ routing.http_status r (fst run) = 500).
Proof.
  intros run.
  assert (E : run = (Throw not_mapped, db)).
  { subst run. unfold main.get_upcoming_birthdays, bind.
    now rewrite query_Contact_throws. }
  rewrite E. cbn [fst]. split; [reflexivity|].
  split; [discriminate|]. split; [discriminate|].
  eexists. split; reflexivity.
Qed.

End SchemaQueries.

(** ** Routing *)

Module routing_facts.
Import routing.

Lemma first_full_cons (r : Route) (routes : list Route) (req : Request)
    (e : endpoint) (ps : list (string * string)) :
  first_full (r :: routes) req = Some (e, ps) ->
  (matches r req = FULL ps /\ endpoint_of r = e)
  \/ ((forall ps', matches r req <> FULL ps')
      /\ first_full routes req = Some (e, ps)).
Proof.
  cbn [first_full]. destruct (matches r req) as [| |ps0] eqn:Hm.
  - intros H. right. split; [discriminate|exact H].
  - intros H. right. split; [discriminate|exact H].
  - intros H. inversion H; subst. now left.
Qed.

(** Whatever is dispatched to is the endpoint of a route of the table. *)
Lemma first_full_endpoint (routes : list Route) (req : Request)
    (e : endpoint) (ps : list (string * string)) :
  first_full routes req = Some (e, ps) -> In e (map endpoint_of routes).
Proof.
  induction routes as [|r routes IH]; [discriminate|].
  intros H. apply first_full_cons in H. destruct H as [[_ <-]|[_ H]].
  - now left.
  - right. now apply IH.
Qed.

Lemma dispatch_first_full (routes : list Route) (req : Request)
    (e : endpoint) (ps : list (string * string)) :
  dispatch routes req = Dispatch e ps <-> first_full routes req = Some (e, ps).
Proof.
  unfold dispatch. destruct (first_full routes req) as [[e' ps']|].
  - split; intros H; inversion H; reflexivity.
  - split; [|discriminate].
    destruct (existsb _ routes); [discriminate|].
    now destruct (_ && _).
Qed.

Lemma dispatch_endpoint (routes : list Route) (req : Request)
    (e : endpoint) (ps : list (string * string)) :
  dispatch routes req = Dispatch e ps -> In e (map endpoint_of routes).
Proof.
  intros H. apply dispatch_first_full in H. eapply first_full_endpoint, H.
Qed.

(** A route whose methods do not include the request's never matches it
    fully. *)
Lemma matches_other_method (r : Route) (req : Request) :
  existsb (method_eqb (req_method req)) (methods r) = false ->
  forall ps, matches r req <> FULL ps.
Proof.
  intros Hm ps. unfold matches.
  destruct (match_path _ _); [rewrite Hm|]; discriminate.
Qed.

Lemma first_full_other_method (routes : list Route) (req : Request) :
  forallb (fun r => negb (existsb (method_eqb (req_method req)) (methods r)))
          routes = true ->
  first_full routes req = None.
Proof.
  induction routes as [|r routes IH]; [reflexivity|].
  cbn [forallb first_full]. intros H. apply andb_true_iff in H.
  destruct H as [Hr H]. apply negb_true_iff in Hr.
  pose proof (matches_other_method r req Hr) as Hn.
  destruct (matches r req) as [| |ps]; [now apply IH|now apply IH|].
  exfalso. exact (Hn ps eq_refl).
Qed.

Lemma strip_prefix_app (pre rest : string) :
  strip_prefix pre (pre ++ rest) = Some rest.
Proof.
  induction pre as [|a pre IH]; [reflexivity|].
  cbn [append strip_prefix]. now rewrite Ascii.eqb_refl.
Qed.

Lemma strip_prefix_Some (pre s rest : string) :
  strip_prefix pre s = Some rest -> s = pre ++ rest.
Proof.
  revert s. induction pre as [|a pre IH]; intros s; cbn [strip_prefix].
  - intros H. now inversion H.
  - destruct s as [|b s]; [discriminate|].
    destruct (Ascii.eqb_spec a b) as [->|_]; [|discriminate].
    intros H. cbn [append]. f_equal. now apply IH.
Qed.

(** A template without parameters matches its own text, with or without a
    closing newline, and nothing else. *)
Lemma matches_literal (r : Route) (l : string) (req : Request)
    (ps : list (string * string)) :
  compile_path (path r) = [Lit l] ->
  matches r req = FULL ps ->
  (req_path req = l \/ req_path req = l ++ String newline "")
  /\ existsb (method_eqb (req_method req)) (methods r) = true.
Proof.
  intros Hc. unfold matches. rewrite Hc. cbn [match_path].
  destruct (strip_prefix l (req_path req)) as [rest|] eqn:Hs; [|discriminate].
  apply strip_prefix_Some in Hs.
  assert (Hnil : forall t : string, t ++ "" = t).
  { induction t as [|c t IH]; [reflexivity|]. cbn [append]. now rewrite IH. }
  destruct rest as [|c [|d rest]]; [| |discriminate].
  - destruct (existsb _ (methods r)); [|discriminate].
    intros _. split; [|reflexivity]. left. now rewrite Hs, Hnil.
  - destruct (Ascii.eqb_spec c newline) as [->|_]; [|discriminate].
    destruct (existsb _ (methods r)); [|discriminate].
    intros _. split; [|reflexivity]. now right.
Qed.

Lemma span_segment_no_slash (s : string) :
  no_slash s = true -> span_segment s = (s, EmptyString).
Proof.
  induction s as [|c s IH]; [reflexivity|].
  cbn [no_slash span_segment]. intros H. apply andb_true_iff in H.
  destruct H as [Hc Hs]. apply negb_true_iff in Hc. rewrite Hc.
  now rewrite (IH Hs).
Qed.

End routing_facts.

Section Routes.
Import routing.

Ltac table H := let t := eval vm_compute in app in change app with t in H.

(** The head route points elsewhere: go on to the rest of the table. *)
Ltac pass H :=
  apply routing_facts.first_full_cons in H;
  let Fe := fresh "Fe" in
  destruct H as [[_ Fe]|[_ H]]; [discriminate Fe|].

(** The same, keeping that the head route did not match fully. *)
Ltac keep H Hn :=
  apply routing_facts.first_full_cons in H;
  let Fe := fresh "Fe" in
  destruct H as [[_ Fe]|[Hn H]]; [discriminate Fe|].

(** C4.  [update_contact] is the endpoint of no route, of [app] or of
    [router]; no request is dispatched to it; and PUT or PATCH on
    [/contacts/<segment>] is answered 405 from the routes that do hold that
    path. *)
Theorem update_contact_unrouted :
  ~ In update_contact (map endpoint_of (app ++ router))
  /\ (forall req ps, dispatch app req <> Dispatch update_contact ps)
  /\ (forall m seg, m = PUT \/ m = PATCH -> is_segment seg = true ->
        dispatch app (mkRequest m ("/contacts/" ++ seg)) = MethodNotAllowed).
Proof.
  split; [|split].
  - vm_compute. intuition discriminate.
  - intros req ps H. apply routing_facts.dispatch_endpoint in H.
    vm_compute in H. intuition discriminate.
  - intros m seg Hm Hseg. unfold is_segment in Hseg.
    apply andb_true_iff in Hseg. destruct Hseg as [Hne Hns].
    unfold dispatch.
    rewrite routing_facts.first_full_other_method
      by (destruct Hm as [-> | ->]; reflexivity).
    assert (Hp : existsb
              (fun r => is_partial
                 (matches r (mkRequest m ("/contacts/" ++ seg)))) app = true).
    { apply existsb_exists.
      exists (mkRoute "/contacts/{contact_id}" [GET] 200 read_contact).
      split; [vm_compute; tauto|].
      unfold matches. cbn [path req_path].
      change (compile_path "/contacts/{contact_id}")
        with [Lit "/contacts/"; Param "contact_id"].
      cbn [match_path]. rewrite routing_facts.strip_prefix_app.
      rewrite (routing_facts.span_segment_no_slash _ Hns).
      destruct seg as [|c seg]; [discriminate|].
      cbn [match_path]. now destruct Hm as [-> | ->]. }
    now rewrite Hp.
Qed.

(** C9.  The three authentication handlers are registered on [router];
    main.py never includes the router in [app]; no request is dispatched to
    any of them; and [/register], [/login] and [/refresh] are answered 404
    whatever the method. *)
Theorem auth_handlers_unreachable :
  (route_to register_user router
     = Some (mkRoute "/register" [POST] 201 register_user)
   /\ route_to login_user router
      = Some (mkRoute "/login" [POST] 200 login_user)
   /\ route_to refresh_access_token router
      = Some (mkRoute "/refresh" [POST] 200 refresh_access_token))
  /\ ~ In include_router main_py
  /\ (forall req e ps, dispatch app req = Dispatch e ps ->
        e <> register_user /\ e <> login_user /\ e <> refresh_access_token)
  /\ (forall m,
        dispatch app (mkRequest m "/register") = NotFound
        /\ dispatch app (mkRequest m "/login") = NotFound
        /\ dispatch app (mkRequest m "/refresh") = NotFound).
Proof.
  split; [repeat split|]. split; [|split].
  - cbn. intuition discriminate.
  - intros req e ps H. apply routing_facts.dispatch_endpoint in H.
    vm_compute in H. intuition (subst; discriminate).
  - intros m. destruct m; repeat split; reflexivity.
Qed.

(** C10.  A GET on [/contacts/search] or [/contacts/upcoming-birthdays] is
    dispatched to [read_contact], with the last segment as [contact_id],
    which fails validation as an [int]; under any method these two paths
    reach only the [{contact_id}] routes, with a [contact_id] that fails
    validation, or get 405; and no request at all is dispatched to
    [search_contacts] or [get_upcoming_birthdays]. *)
Theorem search_and_birthdays_shadowed :
  (dispatch app (mkRequest GET "/contacts/search")
     = Dispatch read_contact [("contact_id", "search")]
   /\ contact_id_param [("contact_id", "search")] = None)
  /\ (dispatch app (mkRequest GET "/contacts/upcoming-birthdays")
        = Dispatch read_contact [("contact_id", "upcoming-birthdays")]
      /\ contact_id_param [("contact_id", "upcoming-birthdays")] = None)
  /\ (forall m p,
        p = "/contacts/search" \/ p = "/contacts/upcoming-birthdays" ->
        match dispatch app (mkRequest m p) with
        | Dispatch e ps =>
            (e = read_contact \/ e = delete_contact)
            /\ contact_id_param ps = None
        | MethodNotAllowed => True
        | _ => False
        end)
  /\ (forall req ps,
        dispatch app req <> Dispatch search_contacts ps
        /\ dispatch app req <> Dispatch get_upcoming_birthdays ps).
Proof.
  split; [split; reflexivity|]. split; [split; reflexivity|].
  split; [intros m p [-> | ->]; destruct m; cbn; tauto|].
  intros [m p] ps.
  split; intros H; apply routing_facts.dispatch_first_full in H; table H.
  - do 6 pass H. keep H Hread. pass H.
    apply routing_facts.first_full_cons in H.
    destruct H as [[Hm _]|[_ H]]; [|pass H; discriminate H].
    apply (routing_facts.matches_literal _ "/contacts/search") in Hm;
      [|reflexivity].
    cbn [req_path req_method methods] in Hm. destruct Hm as [[-> | ->] Hm];
      destruct m; try discriminate Hm.
    + exact (Hread [("contact_id", "search")] eq_refl).
    + exact (Hread [("contact_id", "search" ++ String newline "")] eq_refl).
  - do 6 pass H. keep H Hread. do 2 pass H.
    apply routing_facts.first_full_cons in H.
    destruct H as [[Hm _]|[_ H]]; [|discriminate H].
    apply (routing_facts.matches_literal _ "/contacts/upcoming-birthdays") in Hm;
      [|reflexivity].
    cbn [req_path req_method methods] in Hm. destruct Hm as [[-> | ->] Hm];
      destruct m; try discriminate Hm.
    + exact (Hread [("contact_id", "upcoming-birthdays")] eq_refl).
    + exact (Hread [("contact_id", "upcoming-birthdays" ++ String newline "")]
               eq_refl).
Qed.

End Routes.

(** * Further properties *)

(** ** Sessions: login, tokens and renewal *)

Section Sessions.
Context {P : Primitives}.

Lemma login_user_inv (now : datetime) (form : main.LoginForm) (db : Db)
    (resp : main.LoginResponse) :
  fst (main.login_user now form db) = Ok resp <->
  exists u,
    user_named db (main.form_username form) = Some u
    /\ pwd_verify (main.form_password form) (User.password u) = true
    /\ resp = main.mkLogin
                (auth.create_access_token (str (User.id u))
                   (timedelta_minutes 30) now)
                (auth.create_refresh_token (str (User.id u)) now) "bearer".
Proof.
  unfold main.login_user, user_named, main.verify_password, bind, query, ret,
    raise.
  destruct (crud.first _ (users db)) as [u|]; cbn [fst].
  - destruct (pwd_verify _ _) eqn:Hv; cbn [negb fst].
    + split.
      * intros E. inversion E; subst. exists u. now repeat split.
      * intros (v & Hv' & _ & ->). now inversion Hv'; subst.
    + split; [discriminate|].
      intros (v & Hv' & Hp & _). inversion Hv'; subst. congruence.
  - split; [discriminate|]. intros (v & Hv' & _). discriminate.
Qed.

Lemma login_user_db (now : datetime) (form : main.LoginForm) (db : Db) :
  snd (main.login_user now form db) = db.
Proof.
  unfold main.login_user, bind, query, ret, raise.
  destruct (crud.first _ (users db)) as [u|]; [|reflexivity].
  now destruct (negb _).
Qed.

Lemma login_user_failure (now : datetime) (form : main.LoginForm) (db : Db)
    (e : HTTPException) :
  fst (main.login_user now form db) = Raise e -> e = invalid_credentials.
Proof.
  unfold main.login_user, bind, query, ret, raise.
  destruct (crud.first _ (users db)) as [u|]; cbn [fst].
  - destruct (negb _); cbn [fst]; [|discriminate].
    intros E. now inversion E.
  - intros E. now inversion E.
Qed.

Lemma verify_token_created (subject : string) (delta : Z) (now now' : datetime)
    (exc : HTTPException) (db : Db) :
  auth.verify_token now' (auth.create_access_token subject delta now) exc db
  = if now' <=? now + delta then (Ok subject, db) else (Raise exc, db).
Proof.
  unfold auth.verify_token, auth.create_access_token, auth.signature_ok,
    auth.expired, ret, raise.
  cbn [sub exp signature]. rewrite String.eqb_refl. cbn [andb].
  rewrite Z.ltb_antisym, negb_involutive. now destruct (now' <=? now + delta).
Qed.

(** X1.  [login_user] never writes to the database; it succeeds exactly when
    the username selects a row whose stored hash verifies the password, and
    then returns the two tokens for [str(user.id)]; an unknown username and
    a wrong password raise one and the same exception, a 401 without any
    header. *)
Theorem login_user_outcome (now : datetime) (form : main.LoginForm) (db : Db) :
  let run := main.login_user now form db in
  snd run = db
  /\ (forall resp, fst run = Ok resp <->
        exists u,
          user_named db (main.form_username form) = Some u
          /\ pwd_verify (main.form_password form) (User.password u) = true
          /\ resp = main.mkLogin
                      (auth.create_access_token (str (User.id u))
                         (timedelta_minutes 30) now)
                      (auth.create_refresh_token (str (User.id u)) now)
                      "bearer")
  /\ (forall e, fst run = Raise e ->
        e = invalid_credentials /\ headers e = []
        /\ (user_named db (main.form_username form) = None
            \/ exists u, user_named db (main.form_username form) = Some u
                 /\ pwd_verify (main.form_password form) (User.password u)
                    = false))
  /\ (user_named db (main.form_username form) = None ->
        fst run = Raise invalid_credentials)
  /\ (forall u, user_named db (main.form_username form) = Some u ->
        pwd_verify (main.form_password form) (User.password u) = false ->
        fst run = Raise invalid_credentials).
Proof.
  intros run. subst run.
  split; [apply login_user_db|]. split; [intros resp; apply login_user_inv|].
  split.
  - intros e He. pose proof (login_user_failure _ _ _ _ He) as ->.
    split; [reflexivity|]. split; [reflexivity|].
    revert He. unfold main.login_user, user_named, main.verify_password,
      bind, query, ret, raise.
    destruct (crud.first _ (users db)) as [u|]; [|now left].
    destruct (pwd_verify _ _) eqn:Hv; cbn [negb fst]; [discriminate|].
    intros _. right. now exists u.
  - unfold main.login_user, user_named, main.verify_password, bind, query,
      ret, raise.
    split.
    + now intros ->.
    + intros u -> ->. reflexivity.
Qed.

(** X2.  The access token of a successful login passes verification, and
    yields its subject, at every time up to 30 minutes (1 800 000 000
    microseconds) after the login and at no later time; the refresh token
    carries the same subject. *)
Theorem login_access_token_lifetime (now : datetime) (form : main.LoginForm)
    (db : Db) (resp : main.LoginResponse) :
  fst (main.login_user now form db) = Ok resp ->
  (forall now' exc db',
     auth.verify_token now' (main.access_token resp) exc db'
     = if now' <=? now + 1800000000
       then (Ok (sub (main.access_token resp)), db')
       else (Raise exc, db'))
  /\ sub (main.refresh_token resp) = sub (main.access_token resp)
  /\ main.token_type resp = "bearer".
Proof.
  intros H. apply login_user_inv in H. destruct H as (u & _ & _ & ->).
  cbn [main.access_token main.refresh_token main.token_type].
  split; [|split; reflexivity].
  intros now' exc db'. now rewrite verify_token_created.
Qed.

End Sessions.

Lemma login_access_token_lifetime_witness :
  fst (main.login_user (P := demo.primitives) 0
         (main.mkForm "alice" "wonderland") demo.db_alice)
  = Ok demo.alice_login
  /\ sub (main.refresh_token demo.alice_login)
     = sub (main.access_token demo.alice_login).
Proof.
  split; [reflexivity|].
  apply (login_access_token_lifetime (P := demo.primitives) 0
           (main.mkForm "alice" "wonderland") demo.db_alice demo.alice_login).
  reflexivity.
Defined.

Section Accounts.
Context {P : Primitives}.

Lemma first_app {A} (pred : A -> bool) (l l' : list A) :
  crud.first pred (l ++ l')
  = match crud.first pred l with
    | Some a => Some a
    | None => crud.first pred l'
    end.
Proof.
  unfold crud.first. induction l as [|x l IH]; [reflexivity|].
  cbn. now destruct (pred x).
Qed.

Lemma register_user_run (salt username password : string) (db : Db) :
  main.register_user salt username password db
  = match user_named db username with
    | Some _ => (Raise user_exists, db)
    | None =>
        (Ok "User registered successfully",
         mkDb (users db ++ [User.mk (user_seq db) username
                                    (pwd_hash salt password)])
              (contacts db) (user_seq db + 1))
    end.
Proof.
  unfold main.register_user, user_named, bind, query, modify, ret, raise.
  now destruct (crud.first _ (users db)).
Qed.

Lemma user_named_None (db : Db) (name : string) :
  user_named db name = None <-> ~ username_taken db name.
Proof.
  rewrite username_taken_first. unfold user_named. split.
  - intros -> [u Hu]. discriminate.
  - intros H. destruct (crud.first _ (users db)) as [u|]; [|reflexivity].
    exfalso. apply H. now exists u.
Qed.

(** X3.  Registering a fresh username and then logging in with the same
    credentials succeeds, with tokens for the id the sequence gave the new
    row, provided the hash library verifies what it has just hashed; a
    password the library rejects against that hash is refused; and logins
    under every other username go as they did before the registration. *)
Theorem register_then_login (salt username password : string)
    (now : datetime) (db : Db) :
  ~ username_taken db username ->
  pwd_verify password (pwd_hash salt password) = true ->
  let db' := snd (main.register_user salt username password db) in
  fst (main.login_user now (main.mkForm username password) db')
  = Ok (main.mkLogin
          (auth.create_access_token (str (user_seq db))
             (timedelta_minutes 30) now)
          (auth.create_refresh_token (str (user_seq db)) now) "bearer")
  /\ (forall wrong,
        pwd_verify wrong (pwd_hash salt password) = false ->
        fst (main.login_user now (main.mkForm username wrong) db')
        = Raise invalid_credentials)
  /\ (forall other pw, other <> username ->
        fst (main.login_user now (main.mkForm other pw) db')
        = fst (main.login_user now (main.mkForm other pw) db)).
Proof.
  intros Hfresh Hverify db'. subst db'.
  apply user_named_None in Hfresh.
  rewrite register_user_run, Hfresh. cbn [snd].
  unfold main.login_user, main.verify_password, bind, query, ret, raise.
  cbn [users main.form_username main.form_password].
  unfold user_named in Hfresh.
  split; [|split].
  - rewrite first_app, Hfresh. unfold crud.first. cbn [find User.username].
    rewrite String.eqb_refl. cbn [User.password User.id].
    now rewrite Hverify.
  - intros wrong Hwrong. rewrite first_app, Hfresh.
    unfold crud.first. cbn [find User.username].
    rewrite String.eqb_refl. cbn [User.password]. now rewrite Hwrong.
  - intros other pw Hother. rewrite first_app.
    destruct (crud.first (fun u => String.eqb (User.username u) other)
                         (users db)) as [v|] eqn:Ho.
    + now destruct (negb _).
    + unfold crud.first. cbn [find User.username].
      destruct (String.eqb_spec username other) as [E|_]; [|reflexivity].
      now elim Hother.
Qed.

(** X4.  [register_user] keeps usernames unique: if no two stored users
    share a username before the call, none do after it; and it only ever
    appends, so every stored user stays, in place. *)
Theorem register_user_keeps_usernames_unique
    (salt username password : string) (db : Db) :
  usernames_unique db ->
  let db' := snd (main.register_user salt username password db) in
  usernames_unique db'
  /\ (exists added, users db' = (users db ++ added)%list
                    /\ (List.length added <= 1)%nat)
  /\ contacts db' = contacts db.
Proof.
  intros Huniq db'. subst db'. rewrite register_user_run.
  destruct (user_named db username) as [u|] eqn:Hq; cbn [snd users contacts].
  - split; [exact Huniq|]. split; [|reflexivity].
    exists []. split; [now rewrite app_nil_r|cbn; lia].
  - split; [|split; [|reflexivity]].
    + unfold usernames_unique in *. cbn [users].
      rewrite map_app. cbn [map User.username].
      apply NoDup_app; [exact Huniq|repeat constructor; intros []|].
      intros name Hin [<-|[]].
      apply user_named_None in Hq. apply Hq.
      apply in_map_iff in Hin. destruct Hin as (v & Hv & Hin).
      now exists v.
    + eexists. split; [reflexivity|cbn; lia].
Qed.

(** X5.  After a successful login, and while the access token lasts,
    [get_current_user] answers with the row whose username is the decimal
    text of the id of the user who logged in, or with 401 when there is no
    such row; it answers with the user who logged in exactly when that
    user's username is the decimal text of their own id. *)
Theorem login_then_current_user (now now' : datetime)
    (form : main.LoginForm) (db : Db) (resp : main.LoginResponse) :
  fst (main.login_user now form db) = Ok resp ->
  now' <= now + timedelta_minutes 30 ->
  exists u,
    user_named db (main.form_username form) = Some u
    /\ fst (main.get_current_user now' (main.access_token resp) db)
       = match user_named db (str (User.id u)) with
         | Some v => Ok v
         | None => Raise credentials_exception
         end
    /\ (fst (main.get_current_user now' (main.access_token resp) db) = Ok u
        <-> User.username u = str (User.id u)).
Proof.
  intros Hlogin Hnow.
  destruct (login_user_subject _ _ _ _ Hlogin) as (u & Hq & _ & Htok).
  exists u. split; [exact Hq|].
  rewrite Htok, (get_current_user_created _ _ _ _ _ Hnow).
  fold (user_named db (str (User.id u))).
  split; [reflexivity|].
  pose proof (first_Some _ _ _ Hq) as [_ Hname]. apply String.eqb_eq in Hname.
  split.
  - destruct (user_named db (str (User.id u))) as [v|] eqn:Hv; [|discriminate].
    intros E. assert (Evu : v = u) by congruence. rewrite Evu in Hv.
    unfold user_named in Hv. apply first_Some in Hv. destruct Hv as [_ Hv].
    apply String.eqb_eq in Hv. exact Hv.
  - intros E. rewrite <- E, Hname. unfold user_named. now rewrite Hq.
Qed.

End Accounts.

Lemma register_then_login_witness :
  ~ username_taken scenario.db_empty "bob"
  /\ pwd_verify (Primitives := demo.primitives) "pw"
       (pwd_hash (Primitives := demo.primitives) "salt" "pw") = true
  /\ fst (main.login_user (P := demo.primitives) 5 (main.mkForm "bob" "pw")
            (snd (main.register_user (P := demo.primitives) "salt" "bob" "pw"
                    scenario.db_empty)))
     = Ok (main.mkLogin
             (auth.create_access_token (P := demo.primitives) "1"
                (timedelta_minutes 30) 5)
             (auth.create_refresh_token (P := demo.primitives) "1" 5)
             "bearer").
Proof.
  assert (Hfresh : ~ username_taken scenario.db_empty "bob")
    by (intros (u & [] & _)).
  split; [exact Hfresh|]. split; [reflexivity|].
  exact (proj1 (register_then_login (P := demo.primitives) "salt" "bob" "pw" 5
                  scenario.db_empty Hfresh eq_refl)).
Defined.

Lemma register_user_keeps_usernames_unique_witness :
  usernames_unique demo.db_alice
  /\ usernames_unique
       (snd (main.register_user (P := demo.primitives) "salt" "carol" "pw"
               demo.db_alice)).
Proof.
  assert (Huniq : usernames_unique demo.db_alice).
  { unfold usernames_unique. cbn. constructor; [intros []|constructor]. }
  split; [exact Huniq|].
  exact (proj1 (register_user_keeps_usernames_unique (P := demo.primitives)
                  "salt" "carol" "pw" demo.db_alice Huniq)).
Defined.

Lemma login_then_current_user_witness :
  fst (main.login_user (P := demo.primitives) 0 (main.mkForm "7" "pw")
         scenario.db_seven) = Ok scenario.seven_login
  /\ 10 <= 0 + timedelta_minutes 30
  /\ exists u,
       user_named scenario.db_seven "7" = Some u
       /\ fst (main.get_current_user (P := demo.primitives) 10
                 (main.access_token scenario.seven_login) scenario.db_seven)
          = match user_named scenario.db_seven (str (User.id u)) with
            | Some v => Ok v
            | None => Raise credentials_exception
            end
       /\ (fst (main.get_current_user (P := demo.primitives) 10
                  (main.access_token scenario.seven_login) scenario.db_seven)
           = Ok u
           <-> User.username u = str (User.id u)).
Proof.
  assert (Hnow : 10 <= 0 + timedelta_minutes 30) by (vm_compute; discriminate).
  split; [reflexivity|]. split; [exact Hnow|].
  exact (login_then_current_user (P := demo.primitives) 0 10
           (main.mkForm "7" "pw") scenario.db_seven scenario.seven_login
           eq_refl Hnow).
Defined.

(** ** Renewal *)

Section Renewal.
Context {P : Primitives}.

Lemma refresh_access_token_run (now : datetime) (t : Token) (db : Db) :
  main.refresh_access_token now t db
  = if auth.signature_ok t && negb (auth.expired now t)
    then (Ok (auth.create_access_token (sub t) (timedelta_minutes 30) now,
              "bearer"), db)
    else (Raise refresh_exception, db).
Proof.
  unfold main.refresh_access_token, auth.verify_token, bind, ret, raise.
  now destruct (auth.signature_ok t && negb (auth.expired now t)).
Qed.

Lemma get_current_user_run (now : datetime) (t : Token) (db : Db) :
  main.get_current_user now t db
  = if auth.signature_ok t && negb (auth.expired now t)
    then match user_named db (sub t) with
         | Some u => (Ok u, db)
         | None => (Raise credentials_exception, db)
         end
    else (Raise credentials_exception, db).
Proof.
  unfold main.get_current_user, auth.verify_token, user_named, bind, query,
    ret, raise.
  fold credentials_exception.
  destruct (auth.signature_ok t && negb (auth.expired now t)); [|reflexivity].
  now destruct (crud.first _ (users db)).
Qed.

Lemma signature_ok_created (subject : string) (delta : Z) (now : datetime) :
  auth.signature_ok (auth.create_access_token subject delta now) = true.
Proof.
  unfold auth.signature_ok, auth.create_access_token. cbn [sub exp signature].
  apply String.eqb_refl.
Qed.

Lemma expired_created (subject : string) (delta : Z) (now now' : datetime) :
  auth.expired now' (auth.create_access_token subject delta now)
  = (now + delta <? now').
Proof. reflexivity. Qed.

(** X6.  [refresh_access_token] never looks at the users table: its answer
    is the same over every database, and it leaves the database as it is.
    In particular a token that verifies is renewed, for 30 minutes and under
    the same subject, even when [get_current_user] rejects it because no
    stored user goes by that subject. *)
Theorem refresh_ignores_users (now : datetime) (t : Token) (db : Db) :
  let run := main.refresh_access_token now t db in
  snd run = db
  /\ (forall db', fst (main.refresh_access_token now t db') = fst run)
  /\ (forall e, fst run = Raise e -> e = refresh_exception)
  /\ (auth.signature_ok t = true -> auth.expired now t = false ->
      ~ username_taken db (sub t) ->
      fst (main.get_current_user now t db) = Raise credentials_exception
      /\ exists renewed,
           fst run = Ok (renewed, "bearer")
           /\ sub renewed = sub t
           /\ exp renewed = now + 1800000000
           /\ auth.signature_ok renewed = true).
Proof.
  intros run. subst run. rewrite refresh_access_token_run.
  split; [now destruct (_ && _)|]. split; [|split].
  - intros db'. rewrite refresh_access_token_run. now destruct (_ && _).
  - intros e. destruct (_ && _); cbn [fst]; [discriminate|].
    intros E. now inversion E.
  - intros Hs He Hn. rewrite get_current_user_run, Hs, He. cbn [andb negb fst].
    apply user_named_None in Hn. rewrite Hn. split; [reflexivity|].
    eexists. split; [reflexivity|].
    unfold auth.create_access_token, auth.signature_ok. cbn [sub exp signature].
    now rewrite String.eqb_refl.
Qed.

(** X7.  The two kinds of token are not told apart: a token that
    [get_current_user] accepts as a bearer token is accepted by
    [refresh_access_token] too, over any database, and is renewed under the
    same subject. *)
Theorem bearer_token_is_refreshable (now : datetime) (t : Token) (db : Db)
    (u : User.t) :
  fst (main.get_current_user now t db) = Ok u ->
  forall db',
    fst (main.refresh_access_token now t db')
    = Ok (auth.create_access_token (sub t) (timedelta_minutes 30) now, "bearer").
Proof.
  rewrite get_current_user_run. intros H db'.
  rewrite refresh_access_token_run.
  destruct (auth.signature_ok t && negb (auth.expired now t));
    [reflexivity|discriminate H].
Qed.

(** X8.  A renewed token stands in for the one it was made from: at every
    time within its 30 minutes, [get_current_user] answers for it what it
    answered for the original at renewal time, and it can itself be renewed.
    So one token that verifies once keeps a session alive for as long as it
    is renewed in time. *)
Theorem renewed_token_stands_in (now now' : datetime) (t renewed : Token)
    (kind : string) (db0 db : Db) :
  fst (main.refresh_access_token now t db0) = Ok (renewed, kind) ->
  now' <= now + timedelta_minutes 30 ->
  fst (main.get_current_user now' renewed db)
  = fst (main.get_current_user now t db)
  /\ exists again,
       fst (main.refresh_access_token now' renewed db) = Ok (again, "bearer")
       /\ sub again = sub t.
Proof.
  rewrite refresh_access_token_run. intros H Hnow.
  rewrite (get_current_user_run now t).
  destruct (auth.signature_ok t && negb (auth.expired now t));
    [|discriminate H].
  cbn [fst] in H. inversion H; subst renewed kind. clear H.
  split.
  - rewrite (get_current_user_created _ _ _ _ _ Hnow).
    fold (user_named db (sub t)). now destruct (user_named db (sub t)).
  - rewrite refresh_access_token_run, signature_ok_created, expired_created.
    assert (E : (now + timedelta_minutes 30 <? now') = false)
      by (apply Z.ltb_ge; lia).
    change (timedelta_minutes 30) with 1800000000 in E.
    rewrite E. cbn [andb negb fst]. eexists. split; reflexivity.
Qed.

End Renewal.

Lemma bearer_token_is_refreshable_witness :
  fst (main.get_current_user (P := demo.primitives) 10
         (main.access_token scenario.seven_login) scenario.db_seven)
  = Ok scenario.seven
  /\ fst (main.refresh_access_token (P := demo.primitives) 10
            (main.access_token scenario.seven_login) scenario.db_empty)
     = Ok (auth.create_access_token (P := demo.primitives) "7"
             (timedelta_minutes 30) 10, "bearer").
Proof.
  split; [reflexivity|].
  exact (bearer_token_is_refreshable (P := demo.primitives) 10
           (main.access_token scenario.seven_login) scenario.db_seven
           scenario.seven eq_refl scenario.db_empty).
Defined.

Lemma renewed_token_stands_in_witness :
  fst (main.refresh_access_token (P := demo.primitives) 10
         (main.refresh_token scenario.seven_login) scenario.db_empty)
  = Ok (auth.create_access_token (P := demo.primitives) "7"
          (timedelta_minutes 30) 10, "bearer")
  /\ 20 <= 10 + timedelta_minutes 30
  /\ fst (main.get_current_user (P := demo.primitives) 20
            (auth.create_access_token (P := demo.primitives) "7"
               (timedelta_minutes 30) 10) scenario.db_seven)
     = fst (main.get_current_user (P := demo.primitives) 10
              (main.refresh_token scenario.seven_login) scenario.db_seven).
Proof.
  assert (Hnow : 20 <= 10 + timedelta_minutes 30) by (vm_compute; discriminate).
  split; [reflexivity|]. split; [exact Hnow|].
  exact (proj1 (renewed_token_stands_in (P := demo.primitives) 10 20
                  (main.refresh_token scenario.seven_login) _ "bearer"
                  scenario.db_empty scenario.db_seven eq_refl Hnow)).
Defined.

(** ** Contacts: reading after deleting, and what a user can see *)

Section ContactRows.

Lemma read_contact_run (contact_id : Z) (current_user : User.t) (db : Db) :
  main.read_contact contact_id current_user db
  = match contact_with db contact_id with
    | Some c =>
        if Contact.user_id c =? User.id current_user
        then (Ok c, db) else (Raise not_found, db)
    | None => (Raise not_found, db)
    end.
Proof.
  unfold main.read_contact, crud.get_contact, contact_with, bind, query, ret,
    raise.
  destruct (crud.first _ (contacts db)) as [c|]; [|reflexivity].
  now destruct (Contact.user_id c =? User.id current_user).
Qed.

Lemma delete_contact_run (contact_id : Z) (db : Db) :
  main.delete_contact contact_id db
  = match contact_with db contact_id with
    | Some c =>
        (Ok c,
         mkDb (users db)
              (filter (fun c' => negb (Contact.id c' =? contact_id))
                      (contacts db))
              (user_seq db))
    | None => (Raise not_found, db)
    end.
Proof.
  unfold main.delete_contact, crud.delete_contact, contact_with, bind, query,
    modify, ret, raise.
  now destruct (crud.first _ (contacts db)).
Qed.

Lemma first_filter_same (k : Z) (rows : list Contact.t) :
  crud.first (fun c => Contact.id c =? k)
    (filter (fun c => negb (Contact.id c =? k)) rows) = None.
Proof.
  unfold crud.first. induction rows as [|x rows IH]; [reflexivity|].
  cbn [filter]. destruct (Contact.id x =? k) eqn:E; cbn [negb]; [exact IH|].
  cbn [find]. now rewrite E.
Qed.

Lemma first_filter_other (k k' : Z) (rows : list Contact.t) :
  k' <> k ->
  crud.first (fun c => Contact.id c =? k')
    (filter (fun c => negb (Contact.id c =? k)) rows)
  = crud.first (fun c => Contact.id c =? k') rows.
Proof.
  intros Hk. unfold crud.first. induction rows as [|x rows IH]; [reflexivity|].
  cbn [filter find]. destruct (Z.eqb_spec (Contact.id x) k) as [E|E]; cbn [negb].
  - destruct (Z.eqb_spec (Contact.id x) k') as [E'|_]; [congruence|exact IH].
  - cbn [find]. now rewrite IH.
Qed.

(** After [delete_contact], whatever it answered, no row has the id. *)
Lemma contact_with_after_delete (contact_id : Z) (db : Db) :
  contact_with (snd (main.delete_contact contact_id db)) contact_id = None.
Proof.
  rewrite delete_contact_run.
  destruct (contact_with db contact_id) as [c|] eqn:Hq; cbn [snd]; [|exact Hq].
  unfold contact_with. cbn [contacts]. apply first_filter_same.
Qed.

(** X9.  What [read_contact] returns belongs to the caller: a returned
    contact is a stored row with the requested id and the caller's id as
    owner; a user with any other id gets 404 for the same request; and that
    404 is the very answer given for an id under which nothing is stored, so
    the answer does not tell a foreign contact from a missing one. *)
Theorem read_contact_isolation (contact_id : Z) (current_user : User.t)
    (db : Db) :
  let run := main.read_contact contact_id current_user db in
  (forall c, fst run = Ok c ->
     In c (contacts db) /\ Contact.id c = contact_id
     /\ Contact.user_id c = User.id current_user)
  /\ (forall c other, fst run = Ok c ->
        User.id other <> User.id current_user ->
        main.read_contact contact_id other db = (Raise not_found, db))
  /\ (forall c missing,
        contact_with db contact_id = Some c ->
        Contact.user_id c <> User.id current_user ->
        contact_with db missing = None ->
        run = main.read_contact missing current_user db).
Proof.
  intros run. subst run. rewrite read_contact_run.
  split; [|split].
  - intros c. destruct (contact_with db contact_id) as [c0|] eqn:Hq;
      [|discriminate].
    destruct (Z.eqb_spec (Contact.user_id c0) (User.id current_user)) as [E|_];
      [|discriminate].
    cbn [fst]. intros H. inversion H; subst c0.
    apply first_Some in Hq. destruct Hq as [Hin Hid].
    apply Z.eqb_eq in Hid. tauto.
  - intros c other. rewrite read_contact_run.
    destruct (contact_with db contact_id) as [c0|]; [|discriminate].
    destruct (Z.eqb_spec (Contact.user_id c0) (User.id current_user)) as [E|_];
      [|discriminate].
    intros _ Hother.
    destruct (Z.eqb_spec (Contact.user_id c0) (User.id other)) as [E'|_];
      [congruence|reflexivity].
  - intros c missing -> Hforeign Hmissing. rewrite read_contact_run, Hmissing.
    now destruct (Z.eqb_spec (Contact.user_id c) (User.id current_user)).
Qed.

(** X10.  Once [delete_contact] has run for an id, whatever it answered,
    that id is gone for everyone: [read_contact] raises 404 for every user,
    and a second [delete_contact] raises 404 and changes nothing. *)
Theorem delete_contact_then_gone (contact_id : Z) (db : Db) :
  let db' := snd (main.delete_contact contact_id db) in
  (forall user, main.read_contact contact_id user db' = (Raise not_found, db'))
  /\ main.delete_contact contact_id db' = (Raise not_found, db')
  /\ (forall c, In c (contacts db') -> Contact.id c <> contact_id).
Proof.
  intros db'. pose proof (contact_with_after_delete contact_id db) as Hgone.
  fold db' in Hgone. split; [|split].
  - intros user. now rewrite read_contact_run, Hgone.
  - now rewrite delete_contact_run, Hgone.
  - intros c Hc. apply (proj1 (first_None _ _) Hgone) in Hc.
    now apply Z.eqb_neq in Hc.
Qed.

(** X11.  [delete_contact] for one id leaves every other id as it was:
    [read_contact] answers the same for it, before and after, for every
    user; and the users table is untouched. *)
Theorem delete_contact_leaves_others (contact_id other_id : Z) (db : Db) :
  other_id <> contact_id ->
  let db' := snd (main.delete_contact contact_id db) in
  (forall user,
     fst (main.read_contact other_id user db')
     = fst (main.read_contact other_id user db))
  /\ users db' = users db
  /\ user_seq db' = user_seq db.
Proof.
  intros Hother db'. subst db'. rewrite delete_contact_run.
  destruct (contact_with db contact_id) as [c|]; cbn [snd];
    [|now repeat split].
  split; [|now split].
  intros user. rewrite !read_contact_run. unfold contact_with.
  cbn [contacts]. rewrite (first_filter_other _ _ _ Hother).
  destruct (crud.first _ (contacts db)) as [c'|]; [|reflexivity].
  now destruct (Contact.user_id c' =? User.id user).
Qed.

End ContactRows.

Lemma delete_contact_leaves_others_witness :
  2 <> 1
  /\ fst (main.read_contact 2 (User.mk 2 "ben" "hash")
            (snd (main.delete_contact 1 db_two)))
     = fst (main.read_contact 2 (User.mk 2 "ben" "hash") db_two).
Proof.
  assert (H : 2 <> 1) by discriminate.
  split; [exact H|].
  exact (proj1 (delete_contact_leaves_others 1 2 db_two H)
           (User.mk 2 "ben" "hash")).
Defined.

(** ** Subjects *)

Lemma str_inj (a b : Z) : str a = str b -> a = b.
Proof.
  unfold str. intros H. apply (f_equal NilEmpty.int_of_string) in H.
  rewrite !NilEmpty.isi in H. inversion H as [E].
  now apply DecimalZ.to_int_inj in E.
Qed.

Lemma NoDup_map_inj {A B} (f : A -> B) (l : list A) (a b : A) :
  NoDup (map f l) -> In a l -> In b l -> f a = f b -> a = b.
Proof.
  induction l as [|x l IH]; intros Hnd Ha Hb E; [destruct Ha|].
  cbn [map] in Hnd. inversion Hnd as [|? ? Hx Hnd']; subst.
  destruct Ha as [->|Ha], Hb as [->|Hb].
  - reflexivity.
  - exfalso. apply Hx. rewrite E. now apply in_map.
  - exfalso. apply Hx. rewrite <- E. now apply in_map.
  - now apply IH.
Qed.

(** X21.  Accounts never share a subject: over a users table keyed by id,
    two successful logins, at any times, whose access tokens carry the same
    subject were made under the same username. *)
Theorem login_subjects_distinct {P : Primitives} (now now' : datetime)
    (form form' : main.LoginForm) (db : Db)
    (resp resp' : main.LoginResponse) :
  user_ids_unique db ->
  fst (main.login_user now form db) = Ok resp ->
  fst (main.login_user now' form' db) = Ok resp' ->
  sub (main.access_token resp) = sub (main.access_token resp') ->
  main.form_username form = main.form_username form'.
Proof.
  intros Hids H H' Hsub.
  destruct (login_user_subject _ _ _ _ H) as (u & Hu & _ & Ht).
  destruct (login_user_subject _ _ _ _ H') as (u' & Hu' & _ & Ht').
  rewrite Ht, Ht' in Hsub. cbn [sub auth.create_access_token] in Hsub.
  apply str_inj in Hsub.
  apply first_Some in Hu, Hu'. destruct Hu as [Hin Hn], Hu' as [Hin' Hn'].
  apply String.eqb_eq in Hn, Hn'.
  pose proof (NoDup_map_inj User.id _ _ _ Hids Hin Hin' Hsub) as E.
  subst u'. congruence.
Qed.

Lemma login_subjects_distinct_witness :
  user_ids_unique demo.db_crossed
  /\ fst (main.login_user (P := demo.primitives) 0 (main.mkForm "2" "first")
            demo.db_crossed)
     = Ok (main.mkLogin
             (auth.create_access_token (P := demo.primitives) "1"
                (timedelta_minutes 30) 0)
             (auth.create_refresh_token (P := demo.primitives) "1" 0) "bearer")
  /\ main.form_username (main.mkForm "2" "first")
     = main.form_username (main.mkForm "2" "first").
Proof.
  assert (Hids : user_ids_unique demo.db_crossed).
  { unfold user_ids_unique. cbn.
    constructor; [cbn; intros [H|[]]; discriminate H|].
    constructor; [intros []|constructor]. }
  split; [exact Hids|]. split; [reflexivity|].
  exact (login_subjects_distinct (P := demo.primitives) 0 0
           (main.mkForm "2" "first") (main.mkForm "2" "first") demo.db_crossed
           _ _ Hids eq_refl eq_refl eq_refl).
Defined.
